(** * ham-radio-compass: the geodetic core of the [App] component

    The component computes three things from sensor data:

    - [latLonToMaiden8]: GPS latitude/longitude to a Maidenhead locator,
    - [calculateHeading]: a magnetometer sample to a compass heading,
    - [getDirection]: a heading to a compass-point label.

    JavaScript numbers are modelled by exact arithmetic.  Every finite
    double is a rational, so the encoder runs over [Q] (and stays
    executable); the heading needs [atan2] and [Math.PI], so it runs over
    the real numbers [R].  NaN and the infinities are outside these two
    models, as they are outside the documented input domain.

    The encoder is given a second time on binary64 doubles, with the
    rounding of every operation, to replay the concrete coordinates of the
    statements below on the numbers the program really computes with.

    The state of the component and its callbacks (the magnetometer
    listener, [startWatching] and its position callback, the choice of the
    location block in the render) are a step function on a record. *)

From Stdlib Require Import ZArith QArith Qround Reals Zfloor Lia Psatz.
From Stdlib Require Import String Ascii List.
From Stdlib Require Import DecimalString Floats.
Import ListNotations.

Set Warnings "-inexact-float".

(** ** JavaScript primitives used by the source *)

Module JS.

Local Open Scope Q_scope.

(** [Math.floor] on a number; the result is an integer. *)
Definition Math_floor (q : Q) : Z := Qfloor q.

(** Truncation toward zero, the quotient that [%] is defined from. *)
Definition Qtrunc (q : Q) : Z := Z.quot (Qnum q) (Zpos (Qden q)).

(** The remainder operator [a % b]: [a - b * trunc (a / b)], which has the
    sign of the dividend.  The source only divides by non-zero literals. *)
Definition rem (a b : Q) : Q := a - b * inject_Z (Qtrunc (a / b)).

(** The comparisons [a <= b], [a >= b], [a > b] and [a < b] on numbers. *)
Definition num_le (a b : Q) : bool := Qle_bool a b.
Definition num_ge (a b : Q) : bool := Qle_bool b a.
Definition num_gt (a b : Q) : bool := negb (Qle_bool a b).
Definition num_lt (a b : Q) : bool := negb (Qle_bool b a).

(** [Number.prototype.toString] at an integer value: decimal digits with a
    leading minus sign for negative values.  The encoder prints remainders
    only, far below the magnitude at which JavaScript switches to exponent
    notation. *)
Definition toString (z : Z) : string :=
  NilZero.string_of_int (Z.to_int z).

(** [s[i]] as an operand of [+] next to a string: the character at index
    [i], or the text of [undefined] when [i] is not an index of [s]. *)
Definition at_index (s : string) (i : Z) : string :=
  match (if ((0 <=? i) && (i <? Z.of_nat (String.length s)))%Z
         then String.get (Z.to_nat i) s else None) with
  | Some c => String c EmptyString
  | None => "undefined"%string
  end.

(** Whether [i] is an index of [s], that is whether [s[i]] is a character
    and not [undefined]. *)
Definition in_table (s : string) (i : Z) : bool :=
  ((0 <=? i) && (i <? Z.of_nat (String.length s)))%Z.

(** [s[i] + t[j]], a sum whose operands are both lookups.  With a
    character on either side [+] concatenates and [undefined] reads as its
    text; two [undefined] are added as numbers, which gives NaN, printed
    [NaN] by the concatenations that follow. *)
Definition index_plus_index (s : string) (i : Z) (t : string) (j : Z)
  : string :=
  if in_table s i || in_table t j
  then (at_index s i ++ at_index t j)%string
  else "NaN"%string.

(** [s.slice(b, e)] for non-negative [b] and [e]: the characters at the
    positions [b .. e-1] that exist in [s]. *)
Definition slice (s : string) (b e : nat) : string :=
  String.substring b (e - b) s.

Definition is_upper (c : ascii) : bool :=
  ((65 <=? nat_of_ascii c) && (nat_of_ascii c <=? 90))%nat.

Definition is_lower (c : ascii) : bool :=
  ((97 <=? nat_of_ascii c) && (nat_of_ascii c <=? 122))%nat.

Definition is_digit (c : ascii) : bool :=
  ((48 <=? nat_of_ascii c) && (nat_of_ascii c <=? 57))%nat.

Definition upper_char (c : ascii) : ascii :=
  if is_lower c then ascii_of_nat (nat_of_ascii c - 32) else c.

Definition lower_char (c : ascii) : ascii :=
  if is_upper c then ascii_of_nat (nat_of_ascii c + 32) else c.

(** [toUpperCase] and [toLowerCase] on ASCII text. *)
Fixpoint toUpperCase (s : string) : string :=
  match s with
  | EmptyString => EmptyString
  | String c r => String (upper_char c) (toUpperCase r)
  end.

Fixpoint toLowerCase (s : string) : string :=
  match s with
  | EmptyString => EmptyString
  | String c r => String (lower_char c) (toLowerCase r)
  end.

End JS.

(** ** The Maidenhead encoder, [latLonToMaiden8] *)

Module Maidenhead.

Local Open Scope Q_scope.
Import JS.

Definition A : string := "ABCDEFGHIJKLMNOPQRSTUVWXYZ".
Definition a : string := "abcdefghijklmnopqrstuvwxyz".

(** The eight local constants of [latLonToMaiden8], in source order. *)
Record cells : Set := mkCells {
  lonField : Z;
  latField : Z;
  lonSquare : Z;
  latSquare : Z;
  lonSub : Z;
  latSub : Z;
  lonExt : Z;
  latExt : Z
}.

(** The body of [latLonToMaiden8] up to its [return]. *)
Definition maidenCells (lat lon : Q) : cells :=
  let lon := lon + 180 in
  let lat := lat + 90 in
  {| lonField := Math_floor (lon / 20);
     latField := Math_floor (lat / 10);
     lonSquare := Math_floor (rem lon 20 / 2);
     latSquare := Math_floor (rem lat 10 / 1);
     lonSub := Math_floor (rem lon 2 / 2 * 24);
     latSub := Math_floor (rem lat 1 * 24);
     lonExt := Math_floor (rem (lon * 60) 2 * 60 / 5);
     latExt := Math_floor (rem (lat * 60) (5 # 2) * 60 / 5) |}.

(** The [return] expression: eight pieces added in fixed order.  The first
    [+] stands between two lookups; from the third piece on the left
    operand is a string and [+] concatenates. *)
Definition render (c : cells) : string :=
  (index_plus_index A (lonField c) A (latField c) ++
   toString (lonSquare c) ++
   toString (latSquare c) ++
   at_index a (lonSub c) ++
   at_index a (latSub c) ++
   toString (lonExt c) ++
   toString (latExt c))%string.

Definition latLonToMaiden8 (lat lon : Q) : string :=
  render (maidenCells lat lon).

(** The grid text built in the GPS callback of [startWatching]. *)
Definition formatted (maiden : string) : string :=
  (toUpperCase (slice maiden 0 2) ++
   slice maiden 2 4 ++
   toLowerCase (slice maiden 4 6) ++
   slice maiden 6 8)%string.

End Maidenhead.

(** ** The encoder on IEEE doubles

    The same function with the arithmetic of binary64 numbers, rounding
    included, used to replay the concrete inputs of the claims bit for bit.
    [+], [*] and [/] are the primitive double operations; [Math.floor] and
    [%] are exact on doubles and are computed from the mantissa and
    exponent. *)

Module Doubles.

Local Open Scope float_scope.

(** The result of [Math.floor] on a double: an integer, or the argument
    itself when it is not finite. *)
Inductive floored : Set :=
  | Integer (n : Z)
  | PosInfinity
  | NegInfinity
  | NotANumber.

Definition Math_floor (f : float) : floored :=
  match Prim2SF f with
  | S754_zero _ => Integer 0
  | S754_finite s m e =>
      let v := if s then Zneg m else Zpos m in
      Integer (if (0 <=? e)%Z then v * 2 ^ e else v / 2 ^ (- e))%Z
  | S754_infinity false => PosInfinity
  | S754_infinity true => NegInfinity
  | S754_nan => NotANumber
  end.

(** [x % y] on doubles.  Both magnitudes are scaled to integers over the
    smaller exponent; their remainder is exact and takes the sign of the
    dividend. *)
Definition rem (x y : float) : float :=
  match Prim2SF x, Prim2SF y with
  | S754_finite sx mx ex, S754_finite _ my ey =>
      let e := Z.min ex ey in
      match ((Zpos mx * 2 ^ (ex - e)) mod (Zpos my * 2 ^ (ey - e)))%Z with
      | Zpos r => SF2Prim (S754_finite sx r e)
      | _ => if sx then neg_zero else zero
      end
  | S754_zero _, S754_finite _ _ _ => x
  | S754_zero _, S754_infinity _ => x
  | S754_finite _ _ _, S754_infinity _ => x
  | _, _ => nan
  end.

Definition toString (v : floored) : string :=
  match v with
  | Integer n => JS.toString n
  | PosInfinity => "Infinity"
  | NegInfinity => "-Infinity"
  | NotANumber => "NaN"
  end.

Definition at_index (s : string) (v : floored) : string :=
  match v with
  | Integer n => JS.at_index s n
  | _ => "undefined"
  end.

Definition in_table (s : string) (v : floored) : bool :=
  match v with
  | Integer n => JS.in_table s n
  | _ => false
  end.

Definition index_plus_index (s : string) (u : floored) (t : string)
    (v : floored) : string :=
  if in_table s u || in_table t v
  then (at_index s u ++ at_index t v)%string
  else "NaN".

Definition latLonToMaiden8 (lat lon : float) : string :=
  let lon := lon + 180 in
  let lat := lat + 90 in
  let A := Maidenhead.A in
  let a := Maidenhead.a in
  let lonField := Math_floor (lon / 20) in
  let latField := Math_floor (lat / 10) in
  let lonSquare := Math_floor (rem lon 20 / 2) in
  let latSquare := Math_floor (rem lat 10 / 1) in
  let lonSub := Math_floor (rem lon 2 / 2 * 24) in
  let latSub := Math_floor (rem lat 1 * 24) in
  let lonExt := Math_floor (rem (lon * 60) 2 * 60 / 5) in
  let latExt := Math_floor (rem (lat * 60) 2.5 * 60 / 5) in
  (index_plus_index A lonField A latField ++
   toString lonSquare ++
   toString latSquare ++
   at_index a lonSub ++
   at_index a latSub ++
   toString lonExt ++
   toString latExt)%string.

End Doubles.

(** ** The heading resolver, [calculateHeading] and [getDirection] *)

Module Heading.

Local Open Scope R_scope.

(** The argument of [calculateHeading], [{x: number; y: number; z: number}]. *)
Record MagneticSample : Set := mkSample { x : R; y : R; z : R }.

(** [Math.atan2(b, a)], the angle of the point [(a, b)] in [(-PI, PI]].
    The reals have one zero, so the origin is given the angle 0. *)
Definition Math_atan2 (b a : R) : R :=
  if Rlt_dec 0 a then atan (b / a)
  else if Rlt_dec a 0 then
    if Rle_dec 0 b then atan (b / a) + PI else atan (b / a) - PI
  else
    if Rlt_dec 0 b then PI / 2
    else if Rlt_dec b 0 then - (PI / 2)
    else 0.

(** [Math.round]: the nearest integer, ties going up. *)
Definition Math_round (r : R) : Z := Zfloor (r + / 2).

(** The angle before rounding: the two assignments to [angle]. *)
Definition rawAngle (data : MagneticSample) : R :=
  let angle := Math_atan2 (- y data) (x data) * (180 / PI) in
  if Rle_dec 0 angle then angle else 360 + angle.

Definition calculateHeading (data : MagneticSample) : Z :=
  Math_round (rawAngle data).

Local Open Scope Q_scope.
Local Open Scope string_scope.

Definition getDirection (angle : Q) : string :=
  if JS.num_ge angle 337 || JS.num_le angle 22 then "N"
  else if JS.num_gt angle 22 && JS.num_le angle 67 then "NE"
  else if JS.num_gt angle 67 && JS.num_le angle 112 then "E"
  else if JS.num_gt angle 112 && JS.num_le angle 157 then "SE"
  else if JS.num_gt angle 157 && JS.num_le angle 202 then "S"
  else if JS.num_gt angle 202 && JS.num_le angle 247 then "SW"
  else if JS.num_gt angle 247 && JS.num_le angle 292 then "W"
  else if JS.num_gt angle 292 && JS.num_lt angle 337 then "NW"
  else "".

End Heading.

(** ** The sectors of the design document

    The eight compass points and the sector of headings the specification
    assigns to each; [getDirection] is compared against this table. *)

Module Sectors.

Local Open Scope Z_scope.

Inductive DirectionLabel : Set :=
  | Dir_N | Dir_NE | Dir_E | Dir_SE | Dir_S | Dir_SW | Dir_W | Dir_NW.

Definition label_text (l : DirectionLabel) : string :=
  match l with
  | Dir_N => "N" | Dir_NE => "NE" | Dir_E => "E" | Dir_SE => "SE"
  | Dir_S => "S" | Dir_SW => "SW" | Dir_W => "W" | Dir_NW => "NW"
  end.

(** N=[337,360) and [0,22]; NE=(22,67]; E=(67,112]; SE=(112,157];
    S=(157,202]; SW=(202,247]; W=(247,292]; NW=(292,337). *)
Definition in_sector (l : DirectionLabel) (h : Z) : Prop :=
  match l with
  | Dir_N => 337 <= h < 360 \/ 0 <= h <= 22
  | Dir_NE => 22 < h <= 67
  | Dir_E => 67 < h <= 112
  | Dir_SE => 112 < h <= 157
  | Dir_S => 157 < h <= 202
  | Dir_SW => 202 < h <= 247
  | Dir_W => 247 < h <= 292
  | Dir_NW => 292 < h < 337
  end.

End Sectors.

(** ** The locator format of the design document *)

Module Format.

Import JS.

Definition all_digits (s : string) : bool :=
  forallb is_digit (list_ascii_of_string s).

(** The pattern [[A-Z]{2}[0-9]{2}[a-z]{2}[0-9]{2}], anchored at both ends. *)
Definition is_locator (s : string) : bool :=
  match list_ascii_of_string s with
  | [c1; c2; d3; d4; c5; c6; d7; d8] =>
      is_upper c1 && is_upper c2 && is_digit d3 && is_digit d4 &&
      is_lower c5 && is_lower c6 && is_digit d7 && is_digit d8
  | _ => false
  end.

(** What an out-of-range letter lookup contributes to the output. *)
Definition undefined_text : string := "undefined".

(** Whether the text [sub] occurs somewhere in [s]. *)
Definition includes (s sub : string) : bool :=
  match String.index 0 sub s with
  | Some _ => true
  | None => false
  end.

End Format.

(** ** The component state and its callbacks

    The six [useState] cells of [App], the magnetometer listener, the
    function [startWatching] with its position callback, and the three-way
    choice the render makes for the location block.  Each callback is one
    step on the state; [startWatching] is started once, when the component
    mounts, and its progress (awaiting the permission, returned after a
    denial, or watching) is the [watch] component.  The location service
    calls the position callback only once the watcher exists. *)

Module App.

Import Heading Maidenhead.

(** The fields of [Location.LocationObjectCoords] the component reads in
    its callback. *)
Record LocationObjectCoords : Set := mkCoords {
  latitude : Q;
  longitude : Q
}.

Record LocationObject : Set := mkPosition {
  coords : LocationObjectCoords;
  timestamp : Z
}.

Inductive Watch : Set := Pending | Denied | Watching.

Record State : Set := mkState {
  heading : Z;
  location : option LocationObjectCoords;
  gridLocator : option string;
  lastUpdate : option Z;
  updateTime : option Z;
  locationError : option string;
  watch : Watch
}.

(** The initial values given to [useState]. *)
Definition initial : State :=
  mkState 0 None None None None None Pending.

(** The magnetometer listener: [setHeading(calculateHeading(data))]. *)
Definition onMagnetometer (data : MagneticSample) (st : State) : State :=
  mkState (calculateHeading data) (location st) (gridLocator st)
          (lastUpdate st) (updateTime st) (locationError st) (watch st).

(** [startWatching] once the permission request has resolved to [status]. *)
Definition startWatching (status : string) (st : State) : State :=
  if negb (String.eqb status "granted") then
    mkState (heading st) (location st) (gridLocator st) (lastUpdate st)
            (updateTime st)
            (Some "Permission to access location was denied"%string) Denied
  else
    mkState (heading st) (location st) (gridLocator st) (lastUpdate st)
            (updateTime st) (locationError st) Watching.

(** The position callback; [t0] and [t1] are its two readings of
    [Date.now()]. *)
Definition onPosition (pos : LocationObject) (t0 t1 : Z) (st : State)
  : State :=
  let maiden := latLonToMaiden8 (latitude (coords pos))
                                (longitude (coords pos)) in
  mkState (heading st) (Some (coords pos)) (Some (formatted maiden))
          (Some (timestamp pos)) (Some (t1 - t0)%Z) (locationError st)
          (watch st).

Inductive Event : Type :=
  | MagnetometerData (data : MagneticSample)
  | PermissionStatus (status : string)
  | PositionFix (pos : LocationObject) (t0 t1 : Z).

Definition step (st : State) (ev : Event) : State :=
  match ev with
  | MagnetometerData data => onMagnetometer data st
  | PermissionStatus status =>
      match watch st with
      | Pending => startWatching status st
      | _ => st
      end
  | PositionFix pos t0 t1 =>
      match watch st with
      | Watching => onPosition pos t0 t1 st
      | _ => st
      end
  end.

Definition run (events : list Event) : State :=
  fold_left step events initial.

(** What the render puts below the compass:
    [location ? ... : locationError ? ... : ...]. *)
Inductive LocationBlock : Set :=
  | ShowLocation (c : LocationObjectCoords) (grid : option string)
                 (update : option Z)
  | ShowError (message : string)
  | ShowFetching.

Definition locationBlock (st : State) : LocationBlock :=
  match location st with
  | Some c => ShowLocation c (gridLocator st) (updateTime st)
  | None =>
      match locationError st with
      | Some message =>
          if String.eqb message "" then ShowFetching else ShowError message
      | None => ShowFetching
      end
  end.

End App.

(** ** Facts about the JavaScript primitives *)

Module JSFacts.

Import JS.
Local Open Scope Q_scope.

Lemma Qtrunc_nonneg (q : Q) : 0 <= q -> Qtrunc q = Qfloor q.
Proof.
  destruct q as [n d]; unfold Qle, Qtrunc, Qfloor; simpl; intros Hn.
  apply Z.quot_div_nonneg; lia.
Qed.

Lemma floor_lower (lo : Z) (q : Q) :
  inject_Z lo <= q -> (lo <= Math_floor q)%Z.
Proof.
  intros H. unfold Math_floor.
  rewrite <- (Qfloor_Z lo). now apply Qfloor_resp_le.
Qed.

Lemma floor_upper (hi : Z) (q : Q) :
  q < inject_Z hi -> (Math_floor q < hi)%Z.
Proof.
  intros H. unfold Math_floor. rewrite Zlt_Qlt.
  eapply Qle_lt_trans; [apply Qfloor_le | exact H].
Qed.

Lemma floor_upper_le (hi : Z) (q : Q) :
  q <= inject_Z hi -> (Math_floor q <= hi)%Z.
Proof.
  intros H. unfold Math_floor.
  rewrite <- (Qfloor_Z hi). now apply Qfloor_resp_le.
Qed.

(** For a non-negative dividend and a positive divisor, [%] lands in
    [[0, b)]. *)
Lemma rem_range (x b : Q) : 0 <= x -> 0 < b -> 0 <= rem x b /\ rem x b < b.
Proof.
  intros Hx Hb. unfold rem.
  assert (Hq : 0 <= x / b).
  { apply Qle_shift_div_l; [exact Hb | lra]. }
  rewrite (Qtrunc_nonneg _ Hq).
  assert (Hx' : x == (x / b) * b) by (field; lra).
  pose proof (Qfloor_le (x / b)) as Hlo.
  pose proof (Qlt_floor (x / b)) as Hhi.
  rewrite inject_Z_plus in Hhi.
  set (f := inject_Z (Qfloor (x / b))) in *.
  set (q := x / b) in *.
  change (inject_Z 1) with 1 in Hhi.
  split.
  - rewrite Hx' at 1. nra.
  - rewrite Hx' at 1. nra.
Qed.

End JSFacts.


(** ** Facts about the encoder *)

Module MaidenheadFacts.

Import JS JSFacts Maidenhead Format.
Local Open Scope Q_scope.

(** *** Pieces of the rendered text *)

(** A letter-table lookup at an index below 26 is one letter of the table's
    case. *)
Lemma at_index_A (i : Z) :
  (0 <= i < 26)%Z ->
  exists c, String.get (Z.to_nat i) A = Some c /\
            at_index A i = String c EmptyString /\ is_upper c = true.
Proof.
  intros Hi. replace i with (Z.of_nat (Z.to_nat i)) by lia.
  assert (Hn : (Z.to_nat i < 26)%nat) by lia.
  set (n := Z.to_nat i) in *. clearbody n. clear Hi.
  do 26 (destruct n as [| n];
         [eexists; repeat split; reflexivity |]).
  lia.
Qed.

Lemma at_index_a (i : Z) :
  (0 <= i < 26)%Z ->
  exists c, String.get (Z.to_nat i) a = Some c /\
            at_index a i = String c EmptyString /\ is_lower c = true.
Proof.
  intros Hi. replace i with (Z.of_nat (Z.to_nat i)) by lia.
  assert (Hn : (Z.to_nat i < 26)%nat) by lia.
  set (n := Z.to_nat i) in *. clearbody n. clear Hi.
  do 26 (destruct n as [| n];
         [eexists; repeat split; reflexivity |]).
  lia.
Qed.

(** An integer in [[0, 9]] prints as one digit. *)
Lemma toString_digit (n : Z) :
  (0 <= n < 10)%Z ->
  exists d, toString n = String d EmptyString /\ is_digit d = true.
Proof.
  intros Hn. replace n with (Z.of_nat (Z.to_nat n)) by lia.
  assert (Hm : (Z.to_nat n < 10)%nat) by lia.
  set (m := Z.to_nat n) in *. clearbody m. clear Hn.
  do 10 (destruct m as [| m]; [eexists; split; reflexivity |]).
  lia.
Qed.

(** An integer in [[0, 29]] prints as one or two digits, one exactly when it
    is below 10. *)
Lemma toString_small (n : Z) :
  (0 <= n < 30)%Z ->
  exists d r, toString n = String d r /\ is_digit d = true /\
              all_digits r = true /\
              (String.length r <= 1)%nat /\
              (r = EmptyString <-> (n < 10)%Z).
Proof.
  intros Hn. replace n with (Z.of_nat (Z.to_nat n)) by lia.
  assert (Hm : (Z.to_nat n < 30)%nat) by lia.
  set (m := Z.to_nat n) in *. clearbody m. clear Hn.
  do 30 (destruct m as [| m];
         [do 2 eexists; split; [reflexivity |];
          repeat split; solve [reflexivity | simpl; lia | discriminate | intros; lia] |]).
  lia.
Qed.

Lemma upper_char_fixed (c : ascii) : is_upper c = true -> upper_char c = c.
Proof.
  unfold is_upper, upper_char, is_lower. intros H.
  apply andb_prop in H as [_ H]. apply Nat.leb_le in H.
  destruct (Nat.leb_spec 97 (nat_of_ascii c)); [lia | reflexivity].
Qed.

Lemma lower_char_fixed (c : ascii) : is_lower c = true -> lower_char c = c.
Proof.
  unfold is_lower, lower_char, is_upper. intros H.
  apply andb_prop in H as [H _]. apply Nat.leb_le in H.
  destruct (Nat.leb_spec 65 (nat_of_ascii c)); [| reflexivity].
  destruct (Nat.leb_spec (nat_of_ascii c) 90); [lia | reflexivity].
Qed.

Lemma substring_none (s : string) : String.substring 0 0 s = EmptyString.
Proof. destruct s; reflexivity. Qed.

Lemma substring_all (s : string) : String.substring 0 (String.length s) s = s.
Proof. induction s as [| c s IH]; simpl; [reflexivity | now rewrite IH]. Qed.

(** The shape of the rendered text when the six leading cells are in their
    ranges and the extended cells are below 30: an uppercase pair, a digit
    pair, a lowercase pair, then the decimal numerals of [lonExt] and
    [latExt]. *)
Lemma render_shape (c : cells) :
  (0 <= lonField c < 26)%Z -> (0 <= latField c < 26)%Z ->
  (0 <= lonSquare c < 10)%Z -> (0 <= latSquare c < 10)%Z ->
  (0 <= lonSub c < 26)%Z -> (0 <= latSub c < 26)%Z ->
  exists c1 c2 d3 d4 c5 c6,
    render c =
      String c1 (String c2 (String d3 (String d4 (String c5 (String c6
        (toString (lonExt c) ++ toString (latExt c))))))) /\
    is_upper c1 = true /\ is_upper c2 = true /\
    is_digit d3 = true /\ is_digit d4 = true /\
    is_lower c5 = true /\ is_lower c6 = true.
Proof.
  intros H1 H2 H3 H4 H5 H6.
  destruct (at_index_A _ H1) as (c1 & _ & E1 & U1).
  destruct (at_index_A _ H2) as (c2 & _ & E2 & U2).
  destruct (toString_digit _ H3) as (d3 & E3 & D3).
  destruct (toString_digit _ H4) as (d4 & E4 & D4).
  destruct (at_index_a _ H5) as (c5 & _ & E5 & L5).
  destruct (at_index_a _ H6) as (c6 & _ & E6 & L6).
  exists c1, c2, d3, d4, c5, c6. unfold render, index_plus_index.
  assert (T : in_table A (lonField c) = true).
  { unfold in_table. change (Z.of_nat (String.length A)) with 26%Z.
    apply andb_true_intro; split; [apply Z.leb_le | apply Z.ltb_lt]; lia. }
  rewrite T. cbn [orb].
  rewrite E1, E2, E3, E4, E5, E6. simpl. auto 10.
Qed.

(** *** The callback's post-processing on a text of that shape *)

Lemma formatted_shape (c1 c2 d3 d4 c5 c6 : ascii) (rest : string) :
  is_upper c1 = true -> is_upper c2 = true ->
  is_lower c5 = true -> is_lower c6 = true ->
  let m := String c1 (String c2 (String d3 (String d4
             (String c5 (String c6 rest))))) in
  toUpperCase (slice m 0 2) = slice m 0 2 /\
  toLowerCase (slice m 4 6) = slice m 4 6 /\
  formatted m = slice m 0 8.
Proof.
  intros U1 U2 L5 L6 m. unfold formatted, slice, m. simpl.
  rewrite (upper_char_fixed _ U1), (upper_char_fixed _ U2).
  rewrite (lower_char_fixed _ L5), (lower_char_fixed _ L6).
  rewrite !substring_none.
  repeat split.
Qed.

(** *** Absence of the text [undefined] *)

Lemma is_digit_not (c d : ascii) :
  is_digit c = true -> is_digit d = false -> c <> d.
Proof. intros Hc Hd ->. congruence. Qed.

Lemma index_cons (p : string) (c : ascii) (s : string) :
  String.index 0 p (String c s) =
  if String.prefix p (String c s) then Some 0%nat
  else match String.index 0 p s with
       | Some n => Some (S n)
       | None => None
       end.
Proof. reflexivity. Qed.

Lemma prefix_cons (c d : ascii) (p s : string) :
  String.prefix (String c p) (String d s) =
  if ascii_dec c d then String.prefix p s else false.
Proof. reflexivity. Qed.

Lemma index_skip (c : ascii) (s : string) :
  c <> "u"%char ->
  String.index 0 undefined_text (String c s) =
  match String.index 0 undefined_text s with
  | Some n => Some (S n)
  | None => None
  end.
Proof.
  intros Hc. unfold undefined_text. rewrite index_cons, prefix_cons.
  destruct (ascii_dec "u" c) as [E | _]; [congruence | reflexivity].
Qed.

Lemma all_digits_cons (c : ascii) (s : string) :
  all_digits (String c s) = true ->
  is_digit c = true /\ all_digits s = true.
Proof. unfold all_digits; simpl. intros H. now apply andb_prop in H. Qed.

Lemma all_digits_app (s t : string) :
  all_digits s = true -> all_digits t = true -> all_digits (s ++ t) = true.
Proof.
  induction s as [| c s IH]; simpl; intros Hs Ht; [exact Ht |].
  apply all_digits_cons in Hs as [Hc Hs].
  unfold all_digits in *; simpl. now rewrite Hc, IH.
Qed.

Lemma index_digits (s : string) :
  all_digits s = true -> String.index 0 undefined_text s = None.
Proof.
  induction s as [| c s IH]; intros Hs; [reflexivity |].
  apply all_digits_cons in Hs as [Hc Hs].
  rewrite index_skip, (IH Hs); [reflexivity |].
  now apply is_digit_not.
Qed.

Lemma prefix_digits (c : ascii) (p s : string) :
  is_digit c = false -> all_digits s = true ->
  String.prefix (String c p) s = false.
Proof.
  intros Hc Hs. destruct s as [| d s]; [reflexivity |].
  rewrite prefix_cons.
  apply all_digits_cons in Hs as [Hd _].
  destruct (ascii_dec c d) as [-> | _]; [congruence | reflexivity].
Qed.

(** A text of the rendered shape has at most two consecutive lowercase
    letters, so the nine-letter word cannot occur in it. *)
Lemma shape_excludes_undefined (c1 c2 d3 d4 c5 c6 : ascii) (rest : string) :
  is_upper c1 = true -> is_upper c2 = true ->
  is_digit d3 = true -> is_digit d4 = true ->
  all_digits rest = true ->
  includes (String c1 (String c2 (String d3 (String d4
              (String c5 (String c6 rest)))))) undefined_text = false.
Proof.
  intros U1 U2 D3 D4 Hr. unfold includes.
  assert (N1 : c1 <> "u"%char) by (intros ->; discriminate).
  assert (N2 : c2 <> "u"%char) by (intros ->; discriminate).
  assert (N3 : d3 <> "u"%char) by (intros ->; discriminate).
  assert (N4 : d4 <> "u"%char) by (intros ->; discriminate).
  rewrite !index_skip by assumption.
  assert (E : String.index 0 undefined_text (String c5 (String c6 rest))
              = None).
  { pose proof (index_digits _ Hr) as Hi.
    pose proof (prefix_digits "d" "efined" rest eq_refl Hr) as P1.
    pose proof (prefix_digits "n" "defined" rest eq_refl Hr) as P2.
    unfold undefined_text in *.
    rewrite !index_cons, !prefix_cons, P1, P2, Hi.
    destruct (ascii_dec "u" c5); destruct (ascii_dec "n" c6);
      destruct (ascii_dec "u" c6); reflexivity. }
  now rewrite E.
Qed.

(** *** The eight cells for an in-range coordinate *)

(** Division by a literal is multiplication by its inverse, which makes
    the bounds linear. *)
Ltac const_div :=
  unfold Qdiv;
  change (/ 20) with (1 # 20); change (/ 10) with (1 # 10);
  change (/ 5) with (1 # 5); change (/ 2) with (1 # 2);
  change (/ 1) with 1;
  repeat match goal with
         | |- context [inject_Z ?n] =>
             let q := eval cbv in (inject_Z n) in change (inject_Z n) with q
         end.

Ltac open_cells :=
  unfold maidenCells; cbv beta zeta;
  cbn [lonField latField lonSquare latSquare lonSub latSub lonExt latExt].

Section InRange.

Variables lat lon : Q.
Hypothesis Hlat : -90 <= lat <= 90.
Hypothesis Hlon : -180 <= lon <= 180.

Lemma lonField_range : (0 <= lonField (maidenCells lat lon) <= 18)%Z.
Proof.
  open_cells. split; [apply floor_lower | apply floor_upper_le];
    const_div; lra.
Qed.

Lemma latField_range : (0 <= latField (maidenCells lat lon) <= 18)%Z.
Proof.
  open_cells. split; [apply floor_lower | apply floor_upper_le];
    const_div; lra.
Qed.

Lemma lonSquare_range : (0 <= lonSquare (maidenCells lat lon) < 10)%Z.
Proof.
  open_cells. destruct (rem_range (lon + 180) 20) as [H0 H1]; try lra.
  split; [apply floor_lower | apply floor_upper];
    const_div; lra.
Qed.

Lemma latSquare_range : (0 <= latSquare (maidenCells lat lon) < 10)%Z.
Proof.
  open_cells. destruct (rem_range (lat + 90) 10) as [H0 H1]; try lra.
  split; [apply floor_lower | apply floor_upper];
    const_div; lra.
Qed.

Lemma lonSub_range : (0 <= lonSub (maidenCells lat lon) < 24)%Z.
Proof.
  open_cells. destruct (rem_range (lon + 180) 2) as [H0 H1]; try lra.
  split; [apply floor_lower | apply floor_upper];
    const_div; lra.
Qed.

Lemma latSub_range : (0 <= latSub (maidenCells lat lon) < 24)%Z.
Proof.
  open_cells. destruct (rem_range (lat + 90) 1) as [H0 H1]; try lra.
  split; [apply floor_lower | apply floor_upper];
    const_div; lra.
Qed.

(** The extended-square cells are bounded by 24 and 30, not by 10. *)
Lemma lonExt_range : (0 <= lonExt (maidenCells lat lon) < 24)%Z.
Proof.
  open_cells. destruct (rem_range ((lon + 180) * 60) 2) as [H0 H1]; try lra.
  split; [apply floor_lower | apply floor_upper];
    const_div; lra.
Qed.

Lemma latExt_range : (0 <= latExt (maidenCells lat lon) < 30)%Z.
Proof.
  open_cells. destruct (rem_range ((lat + 90) * 60) (5 # 2)) as [H0 H1]; try lra.
  split; [apply floor_lower | apply floor_upper];
    const_div; lra.
Qed.

End InRange.

(** The text of an in-range coordinate has the rendered shape. *)
Lemma latLonToMaiden8_shape (lat lon : Q) :
  -90 <= lat <= 90 -> -180 <= lon <= 180 ->
  exists c1 c2 d3 d4 c5 c6,
    latLonToMaiden8 lat lon =
      String c1 (String c2 (String d3 (String d4 (String c5 (String c6
        (toString (lonExt (maidenCells lat lon)) ++
         toString (latExt (maidenCells lat lon)))))))) /\
    is_upper c1 = true /\ is_upper c2 = true /\
    is_digit d3 = true /\ is_digit d4 = true /\
    is_lower c5 = true /\ is_lower c6 = true.
Proof.
  intros Hlat Hlon. unfold latLonToMaiden8.
  pose proof (lonField_range lat lon Hlon).
  pose proof (latField_range lat lon Hlat).
  pose proof (lonSub_range lat lon Hlon).
  pose proof (latSub_range lat lon Hlat).
  apply render_shape; try lia.
  - now apply lonSquare_range.
  - now apply latSquare_range.
Qed.

Lemma extended_all_digits (lat lon : Q) :
  -90 <= lat <= 90 -> -180 <= lon <= 180 ->
  all_digits (toString (lonExt (maidenCells lat lon)) ++
              toString (latExt (maidenCells lat lon))) = true.
Proof.
  intros Hlat Hlon.
  pose proof (lonExt_range lat lon Hlon) as H1.
  pose proof (latExt_range lat lon Hlat) as H2.
  destruct (toString_small (lonExt (maidenCells lat lon)))
    as (d1 & r1 & E1 & D1 & R1 & _); [lia |].
  destruct (toString_small _ H2) as (d2 & r2 & E2 & D2 & R2 & _).
  rewrite E1, E2. apply all_digits_app; unfold all_digits in *; simpl.
  - now rewrite D1, R1.
  - now rewrite D2, R2.
Qed.

Lemma string_length_app (s t : string) :
  String.length (s ++ t) = (String.length s + String.length t)%nat.
Proof. induction s as [| c s IH]; simpl; [reflexivity | now rewrite IH]. Qed.

(** What does hold of the length: an in-range coordinate is rendered in
    eight to ten characters, eight exactly when both extended cells are
    below 10. *)
Lemma latLonToMaiden8_length (lat lon : Q) :
  -90 <= lat <= 90 -> -180 <= lon <= 180 ->
  (8 <= String.length (latLonToMaiden8 lat lon) <= 10)%nat /\
  (String.length (latLonToMaiden8 lat lon) = 8%nat <->
   (lonExt (maidenCells lat lon) < 10 /\
    latExt (maidenCells lat lon) < 10)%Z).
Proof.
  intros Hlat Hlon.
  destruct (latLonToMaiden8_shape lat lon Hlat Hlon)
    as (c1 & c2 & d3 & d4 & c5 & c6 & E & _).
  pose proof (lonExt_range lat lon Hlon) as H1.
  pose proof (latExt_range lat lon Hlat) as H2.
  destruct (toString_small (lonExt (maidenCells lat lon)))
    as (d1 & r1 & E1 & _ & _ & L1 & Z1); [lia |].
  destruct (toString_small _ H2) as (d2 & r2 & E2 & _ & _ & L2 & Z2).
  rewrite E, E1, E2. cbn [String.length]. rewrite string_length_app.
  cbn [String.length].
  assert (K1 : String.length r1 = 0%nat <-> r1 = EmptyString)
    by (destruct r1; simpl; split; intros K; solve [reflexivity | discriminate K]).
  assert (K2 : String.length r2 = 0%nat <-> r2 = EmptyString)
    by (destruct r2; simpl; split; intros K; solve [reflexivity | discriminate K]).
  split; [lia |]. rewrite <- Z1, <- Z2, <- K1, <- K2. lia.
Qed.

(** *** The claims about the encoder *)

(** C2, evaluated at latitude 0, longitude 0.015625: the encoder returns
    the nine-character text [JJ00aa110], which is not of the form
    [[A-Z]{2}[0-9]{2}[a-z]{2}[0-9]{2}]; at Greenwich it returns ten
    characters.  The double-precision encoder returns the same texts. *)
Theorem latLonToMaiden8_not_eight_chars :
  latLonToMaiden8 0 0.015625 = "JJ00aa110"%string /\
  String.length (latLonToMaiden8 0 0.015625) = 9%nat /\
  is_locator (latLonToMaiden8 0 0.015625) = false /\
  String.length (latLonToMaiden8 51.4780 (-0.0015)) = 10%nat /\
  Doubles.latLonToMaiden8 0 0.015625 = "JJ00aa110"%string /\
  Doubles.latLonToMaiden8 51.4780 (-0.0015) = "IO91xl2214"%string.
Proof. vm_compute. repeat split. Qed.

(** C4, evaluated at longitude 0.015625: the longitude extended-square
    index is 11, outside [[0, 10)], and it is printed as two characters,
    in exact arithmetic and on doubles alike. *)
Theorem lonExt_not_below_ten :
  lonExt (maidenCells 0 0.015625) = 11%Z /\
  ~ (0 <= lonExt (maidenCells 0 0.015625) < 10)%Z /\
  toString (lonExt (maidenCells 0 0.015625)) = "11"%string /\
  Doubles.Math_floor
    (Doubles.rem ((0.015625 + 180) * 60) 2 * 60 / 5)%float
    = Doubles.Integer 11.
Proof.
  assert (E : lonExt (maidenCells 0 0.015625) = 11%Z)
    by (vm_compute; reflexivity).
  rewrite E.
  split; [reflexivity | split; [lia | split; vm_compute; reflexivity]].
Qed.

(** C5: at Greenwich Observatory, latitude 51.4780 and longitude -0.0015,
    the locator starts with the field [IO] and its first four characters
    are [IO91], in exact arithmetic and on doubles alike. *)
Theorem latLonToMaiden8_greenwich :
  slice (latLonToMaiden8 51.4780 (-0.0015)) 0 2 = "IO"%string /\
  slice (latLonToMaiden8 51.4780 (-0.0015)) 0 4 = "IO91"%string /\
  slice (Doubles.latLonToMaiden8 51.4780 (-0.0015)) 0 2 = "IO"%string /\
  slice (Doubles.latLonToMaiden8 51.4780 (-0.0015)) 0 4 = "IO91"%string.
Proof. vm_compute. repeat split. Qed.

(** C6, as stated, fails at the upper edge of the domain: at latitude 90
    and longitude 180 both field indices are 18 and the field letters are
    the nineteenth letter, [S]. *)
Lemma fields_reach_18 :
  lonField (maidenCells 90 180) = 18%Z /\
  latField (maidenCells 90 180) = 18%Z /\
  ~ (0 <= lonField (maidenCells 90 180) < 18)%Z /\
  ~ (0 <= latField (maidenCells 90 180) < 18)%Z /\
  latLonToMaiden8 90 180 = "SS00aa00"%string /\
  Doubles.latLonToMaiden8 90 180 = "SS00aa00"%string.
Proof.
  assert (E1 : lonField (maidenCells 90 180) = 18%Z)
    by (vm_compute; reflexivity).
  assert (E2 : latField (maidenCells 90 180) = 18%Z)
    by (vm_compute; reflexivity).
  rewrite E1, E2.
  split; [reflexivity | split; [reflexivity |]].
  split; [lia | split; [lia |]].
  split; vm_compute; reflexivity.
Qed.

(** C6, amended: for an in-range coordinate both field indices lie in the
    closed range [[0, 18]]. *)
Theorem fields_range (lat lon : Q) :
  -90 <= lat <= 90 -> -180 <= lon <= 180 ->
  (0 <= lonField (maidenCells lat lon) <= 18)%Z /\
  (0 <= latField (maidenCells lat lon) <= 18)%Z.
Proof.
  intros Hlat Hlon. split.
  - open_cells. split; [apply floor_lower | apply floor_upper_le];
      const_div; lra.
  - open_cells. split; [apply floor_lower | apply floor_upper_le];
      const_div; lra.
Qed.

Lemma fields_range_witness :
  (-90 <= 51.4780 <= 90 /\ -180 <= -0.0015 <= 180) /\
  (0 <= lonField (maidenCells 51.4780 (-0.0015)) <= 18)%Z /\
  (0 <= latField (maidenCells 51.4780 (-0.0015)) <= 18)%Z.
Proof.
  split; [lra |]. apply (fields_range 51.4780 (-0.0015)); lra.
Defined.

(** On doubles the sums [lon + 180] and [lat + 90] are rounded, so the
    nineteenth field letter also appears one step below the edge of the
    domain. *)
Lemma field_letter_below_edge :
  Doubles.latLonToMaiden8 0 179.99999999999997 = "SJ00aa00"%string /\
  Doubles.latLonToMaiden8 89.99999999999999 0 = "JS00aa00"%string.
Proof. vm_compute. split; reflexivity. Qed.

(** C8: for an in-range coordinate the text built in the GPS callback is
    the first eight characters of the encoder's output; the two case
    conversions change nothing, so when the output has exactly eight
    characters the callback's text is the output itself. *)
Theorem formatted_is_prefix (lat lon : Q) :
  -90 <= lat <= 90 -> -180 <= lon <= 180 ->
  formatted (latLonToMaiden8 lat lon) = slice (latLonToMaiden8 lat lon) 0 8 /\
  toUpperCase (slice (latLonToMaiden8 lat lon) 0 2)
    = slice (latLonToMaiden8 lat lon) 0 2 /\
  toLowerCase (slice (latLonToMaiden8 lat lon) 4 6)
    = slice (latLonToMaiden8 lat lon) 4 6 /\
  (String.length (latLonToMaiden8 lat lon) = 8%nat ->
   formatted (latLonToMaiden8 lat lon) = latLonToMaiden8 lat lon).
Proof.
  intros Hlat Hlon.
  destruct (latLonToMaiden8_shape lat lon Hlat Hlon)
    as (c1 & c2 & d3 & d4 & c5 & c6 & E & U1 & U2 & _ & _ & L5 & L6).
  pose proof (formatted_shape c1 c2 d3 d4 c5 c6
                (toString (lonExt (maidenCells lat lon)) ++
                 toString (latExt (maidenCells lat lon)))%string
                U1 U2 L5 L6) as F.
  cbv zeta in F. rewrite <- E in F. destruct F as (F1 & F2 & F3).
  repeat split; try assumption.
  intros Hlen. rewrite F3. unfold slice. rewrite <- Hlen, Nat.sub_0_r.
  apply substring_all.
Qed.

Lemma formatted_is_prefix_witness :
  (-90 <= 0 <= 90 /\ -180 <= 0 <= 180) /\
  formatted (latLonToMaiden8 0 0) = slice (latLonToMaiden8 0 0) 0 8 /\
  toUpperCase (slice (latLonToMaiden8 0 0) 0 2)
    = slice (latLonToMaiden8 0 0) 0 2 /\
  toLowerCase (slice (latLonToMaiden8 0 0) 4 6)
    = slice (latLonToMaiden8 0 0) 4 6 /\
  (String.length (latLonToMaiden8 0 0) = 8%nat ->
   formatted (latLonToMaiden8 0 0) = latLonToMaiden8 0 0).
Proof. split; [lra |]. apply (formatted_is_prefix 0 0); lra. Defined.

(** C10: for an in-range coordinate the field indices are at most 18 and
    the subsquare indices at most 23, none is negative, so the four letter
    lookups are inside the 26-letter tables and the output does not contain
    the text [undefined]. *)
Theorem letter_lookups_in_bounds (lat lon : Q) :
  -90 <= lat <= 90 -> -180 <= lon <= 180 ->
  (0 <= lonField (maidenCells lat lon) <= 18)%Z /\
  (0 <= latField (maidenCells lat lon) <= 18)%Z /\
  (0 <= lonSub (maidenCells lat lon) <= 23)%Z /\
  (0 <= latSub (maidenCells lat lon) <= 23)%Z /\
  String.get (Z.to_nat (lonField (maidenCells lat lon))) A <> None /\
  String.get (Z.to_nat (latField (maidenCells lat lon))) A <> None /\
  String.get (Z.to_nat (lonSub (maidenCells lat lon))) a <> None /\
  String.get (Z.to_nat (latSub (maidenCells lat lon))) a <> None /\
  includes (latLonToMaiden8 lat lon) undefined_text = false.
Proof.
  intros Hlat Hlon.
  pose proof (lonField_range lat lon Hlon) as H1.
  pose proof (latField_range lat lon Hlat) as H2.
  pose proof (lonSub_range lat lon Hlon) as H3.
  pose proof (latSub_range lat lon Hlat) as H4.
  destruct (at_index_A (lonField (maidenCells lat lon))) as (k1 & G1 & _);
    [lia |].
  destruct (at_index_A (latField (maidenCells lat lon))) as (k2 & G2 & _);
    [lia |].
  destruct (at_index_a (lonSub (maidenCells lat lon))) as (k3 & G3 & _);
    [lia |].
  destruct (at_index_a (latSub (maidenCells lat lon))) as (k4 & G4 & _);
    [lia |].
  rewrite G1, G2, G3, G4.
  repeat split; try lia; try discriminate.
  destruct (latLonToMaiden8_shape lat lon Hlat Hlon)
    as (c1 & c2 & d3 & d4 & c5 & c6 & E & U1 & U2 & D3 & D4 & _).
  rewrite E. apply shape_excludes_undefined; try assumption.
  now apply extended_all_digits.
Qed.

Lemma letter_lookups_in_bounds_witness :
  (-90 <= 90 <= 90 /\ -180 <= 180 <= 180) /\
  (0 <= lonField (maidenCells 90 180) <= 18)%Z /\
  (0 <= latField (maidenCells 90 180) <= 18)%Z /\
  (0 <= lonSub (maidenCells 90 180) <= 23)%Z /\
  (0 <= latSub (maidenCells 90 180) <= 23)%Z /\
  String.get (Z.to_nat (lonField (maidenCells 90 180))) A <> None /\
  String.get (Z.to_nat (latField (maidenCells 90 180))) A <> None /\
  String.get (Z.to_nat (lonSub (maidenCells 90 180))) a <> None /\
  String.get (Z.to_nat (latSub (maidenCells 90 180))) a <> None /\
  includes (latLonToMaiden8 90 180) undefined_text = false.
Proof.
  split; [lra |]. apply (letter_lookups_in_bounds 90 180); lra.
Defined.

End MaidenheadFacts.

(** ** Facts about the heading resolver *)

Module HeadingFacts.

Import Heading.
Local Open Scope R_scope.

(** [atan] lies below the identity on the non-negative reals. *)
Lemma atan_le_id (t : R) : 0 <= t -> atan t <= t.
Proof.
  intros Ht.
  set (f := (id - atan)%F).
  assert (pr : derivable f).
  { apply derivable_minus; [apply derivable_id | exact derivable_pt_atan]. }
  assert (Hinc : increasing f).
  { apply (nonneg_derivative_1 f pr). intros u.
    rewrite (pr_nu f u (pr u)
               (derivable_pt_minus id atan u (derivable_pt_id u)
                                   (derivable_pt_atan u))).
    unfold f. rewrite derive_pt_minus, derive_pt_id, derive_pt_atan.
    unfold Rsqr.
    assert (H1 : 0 < 1 + u * u) by nra.
    assert (H2 : 1 / (1 + u * u) <= 1).
    { apply (Rmult_le_reg_r (1 + u * u)); [exact H1 |].
      unfold Rdiv. rewrite Rmult_assoc, Rinv_l by lra. nra. }
    lra. }
  specialize (Hinc 0 t Ht). unfold f, minus_fct, id in Hinc.
  rewrite atan_0 in Hinc. lra.
Qed.

Lemma atan_nonneg (t : R) : 0 <= t -> 0 <= atan t.
Proof.
  intros [Ht | <-]; [| rewrite atan_0; lra].
  left. rewrite <- atan_0. now apply atan_increasing.
Qed.

Lemma atan_pos (t : R) : 0 < t -> 0 < atan t.
Proof. intros Ht. rewrite <- atan_0. now apply atan_increasing. Qed.

Lemma atan_nonpos (t : R) : t <= 0 -> atan t <= 0.
Proof.
  intros Ht. pose proof (atan_nonneg (- t)) as H.
  rewrite atan_opp in H. lra.
Qed.

(** [Math.atan2] returns an angle in [(-PI, PI]]. *)
Lemma Math_atan2_range (b c : R) : - PI < Math_atan2 b c <= PI.
Proof.
  pose proof PI_RGT_0 as Hpi.
  unfold Math_atan2.
  destruct (Rlt_dec 0 c) as [Hc | Hc].
  - pose proof (atan_bound (b / c)). lra.
  - destruct (Rlt_dec c 0) as [Hc' | Hc'].
    + pose proof (atan_bound (b / c)) as Hb.
      assert (Hinv : / c < 0) by now apply Rinv_lt_0_compat.
      destruct (Rle_dec 0 b) as [Hb0 | Hb0].
      * assert (atan (b / c) <= 0).
        { apply atan_nonpos. unfold Rdiv. nra. }
        lra.
      * assert (0 < atan (b / c)).
        { apply atan_pos. unfold Rdiv. nra. }
        lra.
    + destruct (Rlt_dec 0 b); [lra |].
      destruct (Rlt_dec b 0); lra.
Qed.

Lemma deg_factor : 0 < 180 / PI /\ PI * (180 / PI) = 180.
Proof.
  pose proof PI_RGT_0 as Hpi. split.
  - apply Rdiv_lt_0_compat; lra.
  - field. lra.
Qed.

(** After the [+360] correction the angle lies in [[0, 360)]. *)
Lemma rawAngle_range (data : MagneticSample) : 0 <= rawAngle data < 360.
Proof.
  unfold rawAngle.
  pose proof (Math_atan2_range (- y data) (x data)) as Ht.
  destruct deg_factor as [Hk Hk180].
  set (t := Math_atan2 (- y data) (x data)) in *.
  set (k := 180 / PI) in *.
  assert (Hlo : - 180 < t * k) by nra.
  assert (Hhi : t * k <= 180) by nra.
  cbv zeta.
  destruct (Rle_dec 0 (t * k)); lra.
Qed.

Lemma Math_round_eq (r : R) (n : Z) :
  IZR n - / 2 <= r < IZR n + / 2 -> Math_round r = n.
Proof. intros H. unfold Math_round. apply Zfloor_eq. lra. Qed.

(** The sample [{x: 1, y: 0.001, z: 0}] points a little below the x axis:
    its corrected angle is in [[359.5, 360)]. *)
Lemma rawAngle_near_360 :
  359.5 <= rawAngle (mkSample 1 (1 / 1000) 0) < 360.
Proof.
  pose proof (rawAngle_range (mkSample 1 (1 / 1000) 0)) as Hr.
  split; [| apply Hr]. clear Hr.
  unfold rawAngle, Math_atan2; simpl.
  destruct (Rlt_dec 0 1) as [_ | H]; [| lra].
  replace (- (1 / 1000) / 1) with (- (1 / 1000)) by field.
  rewrite atan_opp.
  assert (Hlo : 0 < atan (1 / 1000)) by (apply atan_pos; lra).
  assert (Hhi : atan (1 / 1000) <= 1 / 1000) by (apply atan_le_id; lra).
  destruct deg_factor as [Hk Hk180].
  pose proof PI2_3_2 as Hpi.
  set (t := atan (1 / 1000)) in *.
  set (k := 180 / PI) in *.
  assert (Hk60 : k < 60) by nra.
  assert (Hneg : - t * k < 0) by nra.
  assert (Hsmall : - (1 / 2) <= - t * k) by nra.
  destruct (Rle_dec 0 (- t * k)); lra.
Qed.

(** C1, as stated, fails: for the sample [{x: 1, y: 0.001, z: 0}] the
    corrected angle rounds to 360 and [calculateHeading] returns 360, which
    is outside [[0, 359]]. *)
Lemma calculateHeading_reaches_360 :
  calculateHeading (mkSample 1 (1 / 1000) 0) = 360%Z /\
  ~ (0 <= calculateHeading (mkSample 1 (1 / 1000) 0) <= 359)%Z.
Proof.
  assert (H : calculateHeading (mkSample 1 (1 / 1000) 0) = 360%Z).
  { unfold calculateHeading. apply Math_round_eq.
    pose proof rawAngle_near_360. lra. }
  split; [exact H | rewrite H; lia].
Qed.

(** C1, amended: for every sample [calculateHeading] returns an integer in
    [[0, 360]] inclusive: the angle [atan2 (-y, x) * 180 / PI], corrected by
    [+360] when negative, is rounded to the nearest integer and no wrap is
    applied, so the result is 360 exactly when the corrected angle is at
    least 359.5. *)
Theorem calculateHeading_range (data : MagneticSample) :
  calculateHeading data = Math_round (rawAngle data) /\
  IZR (calculateHeading data) - / 2 <= rawAngle data
    < IZR (calculateHeading data) + / 2 /\
  (0 <= calculateHeading data <= 360)%Z /\
  (calculateHeading data = 360%Z <-> 359.5 <= rawAngle data).
Proof.
  pose proof (rawAngle_range data) as Hr.
  unfold calculateHeading, Math_round.
  pose proof (Zfloor_bound (rawAngle data + / 2)) as Hb.
  set (h := Zfloor (rawAngle data + / 2)) in *.
  assert (Hlo : (0 <= h)%Z).
  { apply Zfloor_lub. lra. }
  assert (Hhi : (h < 361)%Z).
  { apply lt_IZR. lra. }
  repeat split; try lra; try lia.
  - intros ->. lra.
  - intros H. apply Zfloor_eq. lra.
Qed.

(** C7: [calculateHeading {x: 1, y: 0, z: 0}] is 0 and
    [calculateHeading {x: 0, y: -1, z: 0}] is 90, the rounded value of
    [atan2 (1, 0) * 180 / PI]. *)
Theorem calculateHeading_axes :
  calculateHeading (mkSample 1 0 0) = 0%Z /\
  calculateHeading (mkSample 0 (- 1) 0) = 90%Z /\
  Math_round (Math_atan2 1 0 * (180 / PI)) = 90%Z.
Proof.
  pose proof PI_RGT_0 as Hpi.
  assert (H90 : Math_atan2 1 0 * (180 / PI) = 90).
  { unfold Math_atan2.
    destruct (Rlt_dec 0 0) as [H | _]; [lra |].
    destruct (Rlt_dec 0 1) as [_ | H]; [| lra].
    field. lra. }
  split; [| split].
  - unfold calculateHeading. apply Math_round_eq.
    unfold rawAngle, Math_atan2; simpl.
    destruct (Rlt_dec 0 1) as [_ | H]; [| lra].
    replace (- 0 / 1) with 0 by field. rewrite atan_0.
    rewrite Rmult_0_l.
    destruct (Rle_dec 0 0); lra.
  - unfold calculateHeading. apply Math_round_eq.
    unfold rawAngle; cbn [x y].
    replace (- (- 1)) with 1 by lra. rewrite H90.
    destruct (Rle_dec 0 90); lra.
  - rewrite H90. apply Math_round_eq. lra.
Qed.

(** C9: [calculateHeading] ignores the z component: two samples with
    equal x and equal y give the same heading, whatever their z. *)
Theorem calculateHeading_ignores_z (d1 d2 : MagneticSample) :
  x d1 = x d2 -> y d1 = y d2 -> calculateHeading d1 = calculateHeading d2.
Proof.
  intros Hx Hy. unfold calculateHeading, rawAngle. now rewrite Hx, Hy.
Qed.

Lemma calculateHeading_ignores_z_witness :
  z (mkSample 1 0 5) <> z (mkSample 1 0 7) /\
  calculateHeading (mkSample 1 0 5) = calculateHeading (mkSample 1 0 7).
Proof.
  split.
  - simpl. lra.
  - apply (calculateHeading_ignores_z (mkSample 1 0 5) (mkSample 1 0 7));
      reflexivity.
Defined.

(** *** [getDirection] against the sector table *)

Lemma Qle_bool_inject (m n : Z) :
  Qle_bool (inject_Z m) (inject_Z n) = (m <=? n)%Z.
Proof. unfold Qle_bool; simpl. now rewrite !Z.mul_1_r. Qed.

Ltac split_comparisons :=
  repeat match goal with
         | |- context [(?m <=? ?n)%Z] => destruct (Z.leb_spec m n)
         end.

(** The label computed for an integer heading, as a comparison chain on
    integers. *)
Lemma getDirection_integer (h : Z) :
  getDirection (inject_Z h) =
  (if (337 <=? h) || (h <=? 22) then "N"
   else if negb (h <=? 22) && (h <=? 67) then "NE"
   else if negb (h <=? 67) && (h <=? 112) then "E"
   else if negb (h <=? 112) && (h <=? 157) then "SE"
   else if negb (h <=? 157) && (h <=? 202) then "S"
   else if negb (h <=? 202) && (h <=? 247) then "SW"
   else if negb (h <=? 247) && (h <=? 292) then "W"
   else if negb (h <=? 292) && negb (337 <=? h) then "NW"
   else "")%Z%string.
Proof.
  unfold getDirection, JS.num_ge, JS.num_le, JS.num_gt, JS.num_lt.
  change 337%Q with (inject_Z 337). change 22%Q with (inject_Z 22).
  change 67%Q with (inject_Z 67). change 112%Q with (inject_Z 112).
  change 157%Q with (inject_Z 157). change 202%Q with (inject_Z 202).
  change 247%Q with (inject_Z 247). change 292%Q with (inject_Z 292).
  now rewrite !Qle_bool_inject.
Qed.

(** C3: for every integer heading in [[0, 359]] exactly one sector of the
    table contains it, [getDirection] returns the label of that sector, and
    the result is never the empty string. *)
Theorem getDirection_sectors (h : Z) :
  (0 <= h <= 359)%Z ->
  exists l : Sectors.DirectionLabel,
    Sectors.in_sector l h /\
    (forall l', Sectors.in_sector l' h -> l' = l) /\
    getDirection (inject_Z h) = Sectors.label_text l /\
    getDirection (inject_Z h) <> ""%string.
Proof.
  intros Hh. rewrite getDirection_integer.
  split_comparisons; simpl; try lia;
    [ exists Sectors.Dir_N | exists Sectors.Dir_N | exists Sectors.Dir_NE
    | exists Sectors.Dir_E | exists Sectors.Dir_SE | exists Sectors.Dir_S
    | exists Sectors.Dir_SW | exists Sectors.Dir_W | exists Sectors.Dir_NW ];
    (split; [simpl; lia | split; [| split; [reflexivity | discriminate]]];
     intros l'; destruct l'; simpl; intros Hl; solve [reflexivity | lia]).
Qed.

Lemma getDirection_sectors_witness :
  (0 <= 337 <= 359)%Z /\
  exists l : Sectors.DirectionLabel,
    Sectors.in_sector l 337 /\
    (forall l', Sectors.in_sector l' 337 -> l' = l) /\
    getDirection (inject_Z 337) = Sectors.label_text l /\
    getDirection (inject_Z 337) <> ""%string.
Proof. split; [lia |]. apply (getDirection_sectors 337). lia. Defined.

End HeadingFacts.

(** ** More on the heading resolver: every number, every sample *)

Module CompassFacts.

Import Heading HeadingFacts.

(** *** [getDirection] on arbitrary numbers *)

Ltac decide_comparisons :=
  repeat match goal with
         | |- context [Qle_bool ?u ?v] =>
             let E := fresh "E" in
             destruct (Qle_bool u v) eqn:E;
             [ apply Qle_bool_iff in E
             | apply not_true_iff_false in E; rewrite Qle_bool_iff in E ];
             cbn [orb andb negb]
         end.

(** [getDirection] returns one of the eight labels for every number,
    fractional, negative or beyond 360 included: the comparisons cover the
    whole line, so the final [return ''] is never reached. *)
Theorem getDirection_total (angle : Q) :
  In (getDirection angle)
     ["N"; "NE"; "E"; "SE"; "S"; "SW"; "W"; "NW"]%string /\
  getDirection angle <> ""%string.
Proof.
  assert (H : In (getDirection angle)
                 ["N"; "NE"; "E"; "SE"; "S"; "SW"; "W"; "NW"]%string).
  { unfold getDirection, JS.num_ge, JS.num_le, JS.num_gt, JS.num_lt.
    decide_comparisons; simpl; try tauto; exfalso; lra. }
  split; [exact H |].
  intros E. rewrite E in H. simpl in H.
  repeat (destruct H as [H | H]; [discriminate H |]). exact H.
Qed.

(** The interval of numbers behind each label, fractional headings
    included: N below or at 22 and from 337 on, NW strictly between 292 and
    337, every other label open below and closed above. *)
Theorem getDirection_intervals (angle : Q) :
  (getDirection angle = "N"%string <-> angle <= 22 \/ 337 <= angle) /\
  (getDirection angle = "NE"%string <-> 22 < angle <= 67) /\
  (getDirection angle = "E"%string <-> 67 < angle <= 112) /\
  (getDirection angle = "SE"%string <-> 112 < angle <= 157) /\
  (getDirection angle = "S"%string <-> 157 < angle <= 202) /\
  (getDirection angle = "SW"%string <-> 202 < angle <= 247) /\
  (getDirection angle = "W"%string <-> 247 < angle <= 292) /\
  (getDirection angle = "NW"%string <-> 292 < angle < 337).
Proof.
  unfold getDirection, JS.num_ge, JS.num_le, JS.num_gt, JS.num_lt.
  decide_comparisons;
    repeat match goal with
           | |- _ /\ _ => split
           | |- _ <-> _ => split; intros ?
           end;
    solve [reflexivity | discriminate | lra].
Qed.

(** Of the 360 integer headings, 46 are labelled N and 44 are labelled NW;
    each of the other six labels covers 45. *)
Theorem getDirection_sector_sizes :
  map (fun l => List.length
                  (filter (fun h => String.eqb (getDirection (inject_Z (Z.of_nat h))) l)
                          (seq 0 360)))
      ["N"; "NE"; "E"; "SE"; "S"; "SW"; "W"; "NW"]%string
  = [46; 45; 45; 45; 45; 45; 45; 44]%nat.
Proof. vm_compute. reflexivity. Qed.

(** *** [getDirection] after [calculateHeading] *)

Local Open Scope R_scope.

Lemma heading_bounds (data : MagneticSample) :
  (0 <= calculateHeading data <= 360)%Z.
Proof.
  pose proof (rawAngle_range data) as Hr.
  unfold calculateHeading, Math_round.
  pose proof (Zfloor_bound (rawAngle data + / 2)) as Hb.
  split; [apply Zfloor_lub; lra |].
  assert (Zfloor (rawAngle data + / 2) < 361)%Z; [apply lt_IZR; lra | lia].
Qed.

(** The label shown for a sample does not depend on the missing wrap: the
    heading and the heading reduced modulo 360 get the same label, and the
    heading 360 is labelled N like the heading 0. *)
Theorem getDirection_wrap_invariant (data : MagneticSample) :
  getDirection (inject_Z (calculateHeading data mod 360)) =
  getDirection (inject_Z (calculateHeading data)) /\
  (calculateHeading data = 360%Z ->
   getDirection (inject_Z (calculateHeading data)) = "N"%string).
Proof.
  pose proof (heading_bounds data) as Hb.
  remember (calculateHeading data) as h eqn:Eh. clear Eh.
  destruct (Z.eq_dec h 360) as [-> | Hne].
  - split; [reflexivity | intros _; reflexivity].
  - split; [| intros E; contradiction].
    rewrite Z.mod_small by lia. reflexivity.
Qed.

(** *** Samples along the eight principal directions *)

Lemma atan_m1 : atan (- 1) = - (PI / 4).
Proof. replace (- 1) with (- (1)) by lra. now rewrite atan_opp, atan_1. Qed.

(** The heading of a sample from the angle [Math.atan2] gives it. *)
Lemma heading_of_angle (data : MagneticSample) (t : R) (n : Z) :
  Math_atan2 (- y data) (x data) = t ->
  (0 <= t /\ t * (180 / PI) = IZR n) \/
  (t < 0 /\ 360 + t * (180 / PI) = IZR n) ->
  calculateHeading data = n.
Proof.
  intros Ht Hn. unfold calculateHeading. apply Math_round_eq.
  unfold rawAngle. rewrite Ht. cbv zeta.
  destruct deg_factor as [Hk _].
  destruct (Rle_dec 0 (t * (180 / PI))) as [H | H];
    destruct Hn as [[H0 E] | [H0 E]]; try lra.
  - exfalso. set (k := 180 / PI) in *. nra.
  - exfalso. apply H. set (k := 180 / PI) in *. nra.
Qed.

Ltac open_atan2 :=
  unfold Math_atan2; cbn [x y];
  repeat match goal with
         | |- context [Rlt_dec ?u ?v] => destruct (Rlt_dec u v); try lra
         | |- context [Rle_dec ?u ?v] => destruct (Rle_dec u v); try lra
         end.

Lemma atan2_values (m : R) :
  0 < m ->
  Math_atan2 (- 0) m = 0 /\
  Math_atan2 (- - m) m = PI / 4 /\
  Math_atan2 (- - m) 0 = PI / 2 /\
  Math_atan2 (- - m) (- m) = 3 * (PI / 4) /\
  Math_atan2 (- 0) (- m) = PI /\
  Math_atan2 (- m) (- m) = - (3 * (PI / 4)) /\
  Math_atan2 (- m) 0 = - (PI / 2) /\
  Math_atan2 (- m) m = - (PI / 4).
Proof.
  intros Hm. pose proof PI_RGT_0 as Hpi.
  repeat split; open_atan2.
  - replace (- 0 / m) with 0 by (field; lra). apply atan_0.
  - replace (- - m / m) with 1 by (field; lra). apply atan_1.
  - replace (- - m / - m) with (- 1) by (field; lra). rewrite atan_m1. lra.
  - replace (- 0 / - m) with 0 by (field; lra). rewrite atan_0. lra.
  - replace (- m / - m) with 1 by (field; lra). rewrite atan_1. lra.
  - replace (- m / m) with (- 1) by (field; lra). apply atan_m1.
Qed.

(** A sample of any strength [m > 0] along one of the eight principal
    directions of the x-y plane gets the heading 0, 45, ..., 315 and the
    labels N, NE, E, SE, S, SW, W, NW in turn; the z component plays no
    part. *)
Theorem principal_directions (m c : R) :
  0 < m ->
  let shown d := (calculateHeading d,
                  getDirection (inject_Z (calculateHeading d))) in
  shown (mkSample m 0 c) = (0%Z, "N"%string) /\
  shown (mkSample m (- m) c) = (45%Z, "NE"%string) /\
  shown (mkSample 0 (- m) c) = (90%Z, "E"%string) /\
  shown (mkSample (- m) (- m) c) = (135%Z, "SE"%string) /\
  shown (mkSample (- m) 0 c) = (180%Z, "S"%string) /\
  shown (mkSample (- m) m c) = (225%Z, "SW"%string) /\
  shown (mkSample 0 m c) = (270%Z, "W"%string) /\
  shown (mkSample m m c) = (315%Z, "NW"%string).
Proof.
  intros Hm shown. pose proof PI_RGT_0 as Hpi.
  destruct (atan2_values m Hm) as (A0 & A1 & A2 & A3 & A4 & A5 & A6 & A7).
  assert (H0 : calculateHeading (mkSample m 0 c) = 0%Z).
  { apply (heading_of_angle _ 0); [exact A0 | left; split; [lra | field; lra]]. }
  assert (H1 : calculateHeading (mkSample m (- m) c) = 45%Z).
  { apply (heading_of_angle _ (PI / 4)); [exact A1 |].
    left; split; [lra | field; lra]. }
  assert (H2 : calculateHeading (mkSample 0 (- m) c) = 90%Z).
  { apply (heading_of_angle _ (PI / 2)); [exact A2 |].
    left; split; [lra | field; lra]. }
  assert (H3 : calculateHeading (mkSample (- m) (- m) c) = 135%Z).
  { apply (heading_of_angle _ (3 * (PI / 4))); [exact A3 |].
    left; split; [lra | field; lra]. }
  assert (H4 : calculateHeading (mkSample (- m) 0 c) = 180%Z).
  { apply (heading_of_angle _ PI); [exact A4 |].
    left; split; [lra | field; lra]. }
  assert (H5 : calculateHeading (mkSample (- m) m c) = 225%Z).
  { apply (heading_of_angle _ (- (3 * (PI / 4)))); [exact A5 |].
    right; split; [lra | field; lra]. }
  assert (H6 : calculateHeading (mkSample 0 m c) = 270%Z).
  { apply (heading_of_angle _ (- (PI / 2))); [exact A6 |].
    right; split; [lra | field; lra]. }
  assert (H7 : calculateHeading (mkSample m m c) = 315%Z).
  { apply (heading_of_angle _ (- (PI / 4))); [exact A7 |].
    right; split; [lra | field; lra]. }
  unfold shown. rewrite H0, H1, H2, H3, H4, H5, H6, H7.
  repeat split.
Qed.

Lemma principal_directions_witness :
  calculateHeading (mkSample (- 2) 2 9) = 225%Z /\
  getDirection (inject_Z (calculateHeading (mkSample (- 2) 2 9))) = "SW"%string.
Proof.
  assert (Hm : 0 < 2) by lra.
  pose proof (principal_directions 2 9 Hm) as H. cbv zeta in H.
  destruct H as (_ & _ & _ & _ & _ & H & _).
  split; [exact (f_equal fst H) | exact (f_equal snd H)].
Defined.

(** *** Field strength *)

Lemma atan2_scale (k b c : R) :
  0 < k -> Math_atan2 (k * b) (k * c) = Math_atan2 b c.
Proof.
  intros Hk. unfold Math_atan2.
  destruct (Rlt_dec 0 c) as [Hc | Hc].
  - destruct (Rlt_dec 0 (k * c)) as [_ | H]; [| exfalso; nra].
    f_equal. field. lra.
  - destruct (Rlt_dec 0 (k * c)) as [H | _]; [exfalso; nra |].
    destruct (Rlt_dec c 0) as [Hc' | Hc'].
    + destruct (Rlt_dec (k * c) 0) as [_ | H]; [| exfalso; nra].
      assert (E : k * b / (k * c) = b / c) by (field; lra).
      rewrite E.
      destruct (Rle_dec 0 b); destruct (Rle_dec 0 (k * b));
        try reflexivity; exfalso; nra.
    + destruct (Rlt_dec (k * c) 0) as [H | _]; [exfalso; nra |].
      destruct (Rlt_dec 0 b); destruct (Rlt_dec 0 (k * b));
        try (exfalso; nra).
      * reflexivity.
      * destruct (Rlt_dec b 0); destruct (Rlt_dec (k * b) 0);
          try reflexivity; exfalso; nra.
Qed.

(** The heading depends on the direction of the horizontal field only:
    scaling x and y by the same positive factor leaves it unchanged. *)
Theorem calculateHeading_scale (k : R) (d1 d2 : MagneticSample) :
  0 < k -> x d2 = k * x d1 -> y d2 = k * y d1 ->
  calculateHeading d2 = calculateHeading d1.
Proof.
  intros Hk Hx Hy. unfold calculateHeading, rawAngle.
  rewrite Hx, Hy.
  replace (- (k * y d1)) with (k * - y d1) by ring.
  now rewrite atan2_scale.
Qed.

Lemma calculateHeading_scale_witness :
  calculateHeading (mkSample 30 (- 40) 7) = calculateHeading (mkSample 3 (- 4) 0).
Proof.
  apply (calculateHeading_scale 10); cbn [x y]; lra.
Defined.

End CompassFacts.

(** ** More on the encoder: what the locator says about the coordinate *)

Module GridFacts.

Import JS JSFacts Maidenhead Format MaidenheadFacts.
Local Open Scope Q_scope.

(** *** The extended cells *)

(** For an in-range coordinate the longitude extended cell is in [[0, 23]]
    and the latitude extended cell in [[0, 29]]; both upper ends are
    reached, at longitude 0.265625 and latitude 0.08203125, where the text
    has ten characters (on doubles as well). *)
Theorem extended_cells_range (lat lon : Q) :
  -90 <= lat <= 90 -> -180 <= lon <= 180 ->
  ((0 <= lonExt (maidenCells lat lon) <= 23)%Z /\
   (0 <= latExt (maidenCells lat lon) <= 29)%Z) /\
  (lonExt (maidenCells 0.08203125 0.265625) = 23%Z /\
   latExt (maidenCells 0.08203125 0.265625) = 29%Z /\
   latLonToMaiden8 0.08203125 0.265625 = "JJ00db2329"%string /\
   Doubles.latLonToMaiden8 0.08203125 0.265625 = "JJ00db2329"%string).
Proof.
  intros Hlat Hlon.
  pose proof (lonExt_range lat lon Hlon).
  pose proof (latExt_range lat lon Hlat).
  split; [lia |]. vm_compute. repeat split.
Qed.

Lemma extended_cells_range_witness :
  (0 <= lonExt (maidenCells 51.4780 (-0.0015)) <= 23)%Z /\
  (0 <= latExt (maidenCells 51.4780 (-0.0015)) <= 29)%Z.
Proof. apply (extended_cells_range 51.4780 (-0.0015)); lra. Defined.

Lemma latLonToMaiden8_length_witness :
  (8 <= String.length (latLonToMaiden8 0 0.015625) <= 10)%nat.
Proof. apply (latLonToMaiden8_length 0 0.015625); lra. Defined.

(** *** The text shown by the GPS callback *)

(** An integer in [[10, 29]] prints as two digits, the first being the
    numeral of its tens. *)
Lemma toString_two (n : Z) :
  (10 <= n < 30)%Z ->
  exists d e, toString n = String d (String e EmptyString) /\
              toString (n / 10) = String d EmptyString /\
              is_digit d = true /\ is_digit e = true.
Proof.
  intros Hn. replace n with (Z.of_nat (Z.to_nat n)) by lia.
  assert (Hm : (10 <= Z.to_nat n < 30)%nat) by lia.
  set (m := Z.to_nat n) in *. clearbody m. clear Hn.
  do 10 (destruct m as [| m]; [lia |]).
  do 20 (destruct m as [| m];
         [do 2 eexists; repeat split; reflexivity |]).
  lia.
Qed.

(** The seventh and eighth character of a text that continues, after six
    characters, with [rest]. *)
Lemma formatted_tail (c1 c2 d3 d4 c5 c6 : ascii) (rest : string) :
  is_upper c1 = true -> is_upper c2 = true ->
  is_lower c5 = true -> is_lower c6 = true ->
  formatted (String c1 (String c2 (String d3 (String d4
               (String c5 (String c6 rest)))))) =
  String c1 (String c2 (String d3 (String d4
    (String c5 (String c6 (slice rest 0 2)))))).
Proof.
  intros U1 U2 L5 L6.
  destruct (formatted_shape c1 c2 d3 d4 c5 c6 rest U1 U2 L5 L6)
    as (_ & _ & F).
  cbv zeta in F. rewrite F. reflexivity.
Qed.

(** The text shown on screen is always a well-formed locator: for an
    in-range coordinate it has exactly eight characters of the form
    [[A-Z]{2}[0-9]{2}[a-z]{2}[0-9]{2}], whatever the length of the encoder's
    output. *)
Theorem formatted_is_locator (lat lon : Q) :
  -90 <= lat <= 90 -> -180 <= lon <= 180 ->
  is_locator (formatted (latLonToMaiden8 lat lon)) = true /\
  String.length (formatted (latLonToMaiden8 lat lon)) = 8%nat.
Proof.
  intros Hlat Hlon.
  destruct (latLonToMaiden8_shape lat lon Hlat Hlon)
    as (c1 & c2 & d3 & d4 & c5 & c6 & E & U1 & U2 & D3 & D4 & L5 & L6).
  pose proof (lonExt_range lat lon Hlon) as H1.
  pose proof (latExt_range lat lon Hlat) as H2.
  destruct (toString_small (lonExt (maidenCells lat lon)))
    as (p & r1 & E1 & P1 & R1 & _); [lia |].
  destruct (toString_small _ H2) as (q & r2 & E2 & P2 & _).
  rewrite E, E1, E2, formatted_tail by assumption.
  unfold slice, is_locator.
  destruct r1 as [| e r1]; simpl; rewrite substring_none; simpl.
  - rewrite U1, U2, D3, D4, L5, L6, P1, P2. split; reflexivity.
  - apply all_digits_cons in R1 as [Pe _].
    rewrite U1, U2, D3, D4, L5, L6, P1, Pe. split; reflexivity.
Qed.

Lemma formatted_is_locator_witness :
  is_locator (formatted (latLonToMaiden8 51.4780 (-0.0015))) = true /\
  String.length (formatted (latLonToMaiden8 51.4780 (-0.0015))) = 8%nat.
Proof. apply (formatted_is_locator 51.4780 (-0.0015)); lra. Defined.

(** Which extended digits are shown.  When the longitude extended cell is
    10 or more, its two digits fill the last two places and the latitude
    extended cell is not shown at all; below 10 it is followed by the
    latitude extended cell, or by the tens digit of that cell when the
    latitude cell is itself 10 or more. *)
Theorem formatted_extended_pair (lat lon : Q) :
  -90 <= lat <= 90 -> -180 <= lon <= 180 ->
  let c := maidenCells lat lon in
  let pair := slice (formatted (latLonToMaiden8 lat lon)) 6 8 in
  ((10 <= lonExt c)%Z -> pair = toString (lonExt c)) /\
  ((lonExt c < 10)%Z -> (latExt c < 10)%Z ->
   pair = (toString (lonExt c) ++ toString (latExt c))%string) /\
  ((lonExt c < 10)%Z -> (10 <= latExt c)%Z ->
   pair = (toString (lonExt c) ++ toString (latExt c / 10))%string).
Proof.
  intros Hlat Hlon c pair. subst pair c.
  destruct (latLonToMaiden8_shape lat lon Hlat Hlon)
    as (c1 & c2 & d3 & d4 & c5 & c6 & E & U1 & U2 & _ & _ & L5 & L6).
  pose proof (lonExt_range lat lon Hlon) as H1.
  pose proof (latExt_range lat lon Hlat) as H2.
  rewrite E, formatted_tail by assumption.
  set (m := lonExt (maidenCells lat lon)) in *.
  set (n := latExt (maidenCells lat lon)) in *.
  clearbody m n. clear E.
  split; [| split].
  - intros Hm. destruct (toString_two m) as (p & e & Em & _); [lia |].
    rewrite Em. unfold slice; simpl. now rewrite substring_none.
  - intros Hm Hn.
    destruct (toString_digit m) as (p & Em & _); [lia |].
    destruct (toString_digit n) as (q & En & _); [lia |].
    rewrite Em, En. reflexivity.
  - intros Hm Hn.
    destruct (toString_digit m) as (p & Em & _); [lia |].
    destruct (toString_two n) as (q & e & En & Et & _); [lia |].
    rewrite Em, En, Et. reflexivity.
Qed.

Lemma formatted_extended_pair_witness :
  slice (formatted (latLonToMaiden8 0 0.015625)) 6 8 = "11"%string /\
  slice (formatted (latLonToMaiden8 51.4780 (-0.0015))) 6 8 = "22"%string.
Proof.
  split.
  - apply (formatted_extended_pair 0 0.015625); [lra | lra |].
    vm_compute. discriminate.
  - apply (formatted_extended_pair 51.4780 (-0.0015)); [lra | lra |].
    vm_compute. discriminate.
Defined.

(** *** Texts that do not determine the cells *)

(** The extended numerals are concatenated without a separator, so the
    text does not determine them: two in-range coordinates whose extended
    cells are (1, 10) and (11, 0) are both rendered as [JJ00aa110], in
    exact arithmetic and on doubles. *)
Theorem latLonToMaiden8_not_injective :
  exists lat1 lon1 lat2 lon2 : Q,
    (-90 <= lat1 <= 90 /\ -180 <= lon1 <= 180) /\
    (-90 <= lat2 <= 90 /\ -180 <= lon2 <= 180) /\
    (lonExt (maidenCells lat1 lon1), latExt (maidenCells lat1 lon1))
      = (1, 10)%Z /\
    (lonExt (maidenCells lat2 lon2), latExt (maidenCells lat2 lon2))
      = (11, 0)%Z /\
    latLonToMaiden8 lat1 lon1 = latLonToMaiden8 lat2 lon2 /\
    Doubles.latLonToMaiden8 0.0146484375 0.001953125
      = Doubles.latLonToMaiden8 0 0.015625.
Proof.
  exists 0.0146484375, 0.001953125, 0, 0.015625.
  split; [split; lra |]. split; [split; lra |].
  vm_compute. repeat split.
Qed.

(** *** Coordinates outside the letter tables *)












End GridFacts.

(** ** The component state along any sequence of callbacks *)

Module AppFacts.

Import Heading Maidenhead Format App.

Lemma run_snoc (events : list Event) (ev : Event) :
  run (events ++ [ev]) = step (run events) ev.
Proof. unfold run. now rewrite fold_left_app. Qed.

Lemma run_app (events rest : list Event) :
  run (events ++ rest) = fold_left step rest (run events).
Proof. unfold run. now rewrite fold_left_app. Qed.

(** What holds between callbacks: the progress of [startWatching] decides
    which cells are filled. *)
Lemma between_callbacks (events : list Event) :
  let st := run events in
  match watch st with
  | Pending =>
      locationError st = None /\ location st = None /\
      gridLocator st = None /\ lastUpdate st = None /\ updateTime st = None
  | Denied =>
      locationError st
        = Some "Permission to access location was denied"%string /\
      location st = None /\
      gridLocator st = None /\ lastUpdate st = None /\ updateTime st = None
  | Watching =>
      locationError st = None /\
      match location st with
      | Some c =>
          gridLocator st
            = Some (formatted (latLonToMaiden8 (latitude c) (longitude c))) /\
          lastUpdate st <> None /\ updateTime st <> None
      | None =>
          gridLocator st = None /\ lastUpdate st = None /\
          updateTime st = None
      end
  end.
Proof.
  cbv zeta.
  induction events as [| ev events IH] using rev_ind;
    [simpl; repeat split |].
  rewrite run_snoc. set (st := run events) in *. clearbody st.
  destruct st as [h l g lu ut le w]. simpl in IH.
  destruct ev as [data | status | pos t0 t1]; simpl.
  - exact IH.
  - destruct w; simpl; try exact IH.
    unfold startWatching; simpl.
    destruct (negb (status =? "granted")%string); simpl.
    + destruct IH as (_ & IH). split; [reflexivity | exact IH].
    + destruct IH as (E & -> & IH). split; [exact E | exact IH].
  - destruct w; simpl; try exact IH.
    destruct IH as (E & _). split; [exact E |].
    repeat split; discriminate.
Qed.

(** The location cells are filled together and the grid text always
    belongs to the coordinates on screen: whenever the location block is
    shown, its grid is the formatted locator of the coordinates shown and
    its update time is present, so neither a missing grid nor the [?] that
    stands in for a missing update time is ever rendered. *)
Theorem location_block_consistent (events : list Event)
    (c : LocationObjectCoords) (grid : option string) (update : option Z) :
  locationBlock (run events) = ShowLocation c grid update ->
  grid = Some (formatted (latLonToMaiden8 (latitude c) (longitude c))) /\
  update <> None /\
  lastUpdate (run events) <> None /\
  locationError (run events) = None.
Proof.
  pose proof (between_callbacks events) as Inv. cbv zeta in Inv.
  unfold locationBlock.
  destruct (location (run events)) as [c' |] eqn:L.
  - intros E. injection E as -> <- <-.
    destruct (watch (run events)).
    + destruct Inv as (_ & Inv & _). discriminate Inv.
    + destruct Inv as (_ & Inv & _). discriminate Inv.
    + destruct Inv as (E & G & T & U). auto.
  - destruct (locationError (run events)) as [m |]; [| discriminate].
    destruct (m =? "")%string; discriminate.
Qed.

Lemma location_block_consistent_witness :
  let events := [PermissionStatus "granted";
                 PositionFix (mkPosition (mkCoords 0 0.015625) 1000) 5 8] in
  locationBlock (run events)
    = ShowLocation (mkCoords 0 0.015625) (Some "JJ00aa11"%string) (Some 3%Z)
  /\ lastUpdate (run events) <> None.
Proof.
  cbv zeta.
  assert (E : locationBlock
                (run [PermissionStatus "granted";
                      PositionFix (mkPosition (mkCoords 0 0.015625) 1000) 5 8])
              = ShowLocation (mkCoords 0 0.015625) (Some "JJ00aa11"%string)
                             (Some 3%Z))
    by (vm_compute; reflexivity).
  split; [exact E |].
  apply (location_block_consistent _ _ _ _ E).
Defined.

(** *** The permission result gates the location block *)

Lemma pending_before_result (events : list Event) :
  Forall (fun ev => match ev with PermissionStatus _ => False | _ => True end)
         events ->
  watch (run events) = Pending.
Proof.
  induction events as [| ev events IH] using rev_ind; [reflexivity |].
  intros H. apply Forall_app in H as [H1 H2]. inversion_clear H2 as [| ? ? Hev _].
  rewrite run_snoc. specialize (IH H1).
  destruct ev as [data | status | pos t0 t1]; simpl.
  - exact IH.
  - contradiction.
  - now rewrite IH.
Qed.

Lemma denied_stays (rest : list Event) (st : State) :
  watch st = Denied -> watch (fold_left step rest st) = Denied.
Proof.
  revert st. induction rest as [| ev rest IH]; intros st H; [exact H |].
  simpl. apply IH. destruct ev; simpl; rewrite ?H; auto.
Qed.

Lemma watching_stays (rest : list Event) (st : State) :
  watch st = Watching -> watch (fold_left step rest st) = Watching.
Proof.
  revert st. induction rest as [| ev rest IH]; intros st H; [exact H |].
  simpl. apply IH. destruct ev; simpl; rewrite ?H; auto.
Qed.

(** Before the permission request resolves the block shows the fetching
    text, position fixes notwithstanding; and a result other than
    ['granted'] is final: whatever callbacks follow, the block shows the
    denial message and no location is stored. *)
Theorem permission_gates_location (events rest : list Event)
    (status : string) :
  Forall (fun ev => match ev with PermissionStatus _ => False | _ => True end)
         events ->
  locationBlock (run events) = ShowFetching /\
  (status <> "granted"%string ->
   locationBlock (run (events ++ PermissionStatus status :: rest))
     = ShowError "Permission to access location was denied" /\
   location (run (events ++ PermissionStatus status :: rest)) = None).
Proof.
  intros Hev. pose proof (pending_before_result events Hev) as Hp.
  split.
  - pose proof (between_callbacks events) as Inv. cbv zeta in Inv.
    rewrite Hp in Inv. destruct Inv as (E & L & _).
    unfold locationBlock. now rewrite L, E.
  - intros Hs.
    assert (Hd : watch (run (events ++ PermissionStatus status :: rest))
                 = Denied).
    { rewrite run_app. simpl. apply denied_stays. rewrite Hp.
      unfold startWatching.
      apply String.eqb_neq in Hs. now rewrite Hs. }
    pose proof (between_callbacks (events ++ PermissionStatus status :: rest))
      as Inv.
    cbv zeta in Inv. rewrite Hd in Inv. destruct Inv as (E & L & _).
    unfold locationBlock. rewrite L, E. split; reflexivity.
Qed.

Lemma permission_gates_location_witness :
  locationBlock
    (run ([PositionFix (mkPosition (mkCoords 0 0) 1) 0 0]
          ++ PermissionStatus "denied"
          :: [PermissionStatus "granted";
              PositionFix (mkPosition (mkCoords 0 0) 2) 0 0]))
  = ShowError "Permission to access location was denied".
Proof.
  apply (permission_gates_location
           [PositionFix (mkPosition (mkCoords 0 0) 1) 0 0]
           [PermissionStatus "granted";
            PositionFix (mkPosition (mkCoords 0 0) 2) 0 0] "denied").
  - repeat constructor.
  - discriminate.
Defined.

(** *** The latest fix and the latest sample *)

Lemma location_kept (rest : list Event) (st : State) :
  Forall (fun ev => match ev with PositionFix _ _ _ => False | _ => True end)
         rest ->
  watch st = Watching ->
  locationBlock (fold_left step rest st) = locationBlock st.
Proof.
  revert st. induction rest as [| ev rest IH]; intros st H W; [reflexivity |].
  inversion_clear H as [| ? ? Hev Hrest]. simpl.
  destruct ev as [data | status | pos t0 t1]; simpl.
  - rewrite IH; [reflexivity | exact Hrest | exact W].
  - rewrite W. now apply IH.
  - contradiction.
Qed.

(** Once the permission is granted, the block shows the latest position
    fix: its coordinates, the formatted locator of those coordinates and
    the time the callback took, until the next fix arrives. *)
Theorem latest_fix_shown (events middle rest : list Event)
    (pos : LocationObject) (t0 t1 : Z) :
  Forall (fun ev => match ev with PermissionStatus _ => False | _ => True end)
         events ->
  Forall (fun ev => match ev with PositionFix _ _ _ => False | _ => True end)
         rest ->
  locationBlock
    (run (events ++ PermissionStatus "granted"
            :: middle ++ PositionFix pos t0 t1 :: rest))
  = ShowLocation (coords pos)
      (Some (formatted (latLonToMaiden8 (latitude (coords pos))
                                        (longitude (coords pos)))))
      (Some (t1 - t0)%Z).
Proof.
  intros Hev Hrest.
  pose proof (pending_before_result events Hev) as Hp.
  assert (Hw : watch (run (events ++ PermissionStatus "granted" :: middle))
               = Watching).
  { rewrite run_app. simpl. apply watching_stays. now rewrite Hp. }
  replace (events ++ PermissionStatus "granted"
             :: middle ++ PositionFix pos t0 t1 :: rest)
    with ((events ++ PermissionStatus "granted" :: middle)
            ++ PositionFix pos t0 t1 :: rest)
    by (rewrite <- app_assoc; reflexivity).
  rewrite run_app. simpl. rewrite Hw.
  rewrite location_kept; [reflexivity | exact Hrest |].
  simpl. exact Hw.
Qed.

Lemma latest_fix_shown_witness :
  locationBlock
    (run ([] ++ PermissionStatus "granted"
            :: [PositionFix (mkPosition (mkCoords 0 0) 1) 0 0]
               ++ PositionFix (mkPosition (mkCoords 51.4780 (-0.0015)) 2) 10 14
               :: [PermissionStatus "denied"]))
  = ShowLocation (mkCoords 51.4780 (-0.0015)) (Some "IO91xl22"%string)
                 (Some 4%Z).
Proof.
  apply (latest_fix_shown [] [PositionFix (mkPosition (mkCoords 0 0) 1) 0 0]
           [PermissionStatus "denied"]
           (mkPosition (mkCoords 51.4780 (-0.0015)) 2) 10 14);
    repeat constructor.
Defined.

Lemma heading_kept (rest : list Event) (st : State) :
  Forall (fun ev => match ev with MagnetometerData _ => False | _ => True end)
         rest ->
  heading (fold_left step rest st) = heading st.
Proof.
  revert st. induction rest as [| ev rest IH]; intros st H; [reflexivity |].
  inversion_clear H as [| ? ? Hev Hrest]. simpl. rewrite (IH _ Hrest).
  destruct ev as [data | status | pos t0 t1]; simpl.
  - contradiction.
  - destruct (watch st); try reflexivity.
    unfold startWatching. now destruct (negb _).
  - now destruct (watch st).
Qed.

(** The heading cell holds the heading of the latest magnetometer sample,
    or 0 before the first one; permission results and position fixes never
    touch it.  It is therefore always in [[0, 360]]. *)
Theorem heading_is_latest_sample (events rest : list Event)
    (data : MagneticSample) :
  Forall (fun ev => match ev with MagnetometerData _ => False | _ => True end)
         rest ->
  heading (run rest) = 0%Z /\
  heading (run (events ++ MagnetometerData data :: rest))
    = calculateHeading data /\
  (0 <= heading (run (events ++ MagnetometerData data :: rest)) <= 360)%Z.
Proof.
  intros H.
  assert (E : heading (run (events ++ MagnetometerData data :: rest))
              = calculateHeading data).
  { rewrite run_app. simpl. now rewrite heading_kept. }
  split; [| split].
  - unfold run. now rewrite heading_kept.
  - exact E.
  - rewrite E. apply CompassFacts.heading_bounds.
Qed.

Lemma heading_is_latest_sample_witness :
  heading (run ([MagnetometerData (mkSample 1 1 0)]
                ++ MagnetometerData (mkSample 1 0 0)
                :: [PermissionStatus "granted"]))
  = calculateHeading (mkSample 1 0 0).
Proof.
  apply (heading_is_latest_sample [MagnetometerData (mkSample 1 1 0)]
           [PermissionStatus "granted"] (mkSample 1 0 0)).
  repeat constructor.
Defined.

End AppFacts.
